(** * Smart Bookmarks: the bookmark view's state logic

    A shallow embedding of [src/components/BookmarkApp.tsx]: the list of
    bookmarks kept in component state, the realtime ([postgres_changes])
    handler, [handleAdd], [handleDelete], the initial [load] and the
    [filteredBookmarks] search filter.

    Strings are JavaScript strings restricted to the code units
    U+0000..U+00FF, one [ascii] per code unit; on that range [toLowerCase]
    and [trim] act unit by unit and are written out below. The module
    [Wide] has lower-casing and the search filter on sequences of UTF-16
    code units over a wider repertoire, where lower-casing depends on
    context; on the narrow strings the two agree. *)

From Stdlib Require Import Ascii String NArith.
From stdpp Require Import base decidable option list strings.

Local Open Scope string_scope.
Local Open Scope list_scope.

(** ** JavaScript string operations used by the component *)

Module Js.

(** White space and line terminators removed by [String.prototype.trim],
    among the code units below U+0100: TAB, LF, VT, FF, CR, SP, NBSP. *)
Definition isWhiteSpace (c : ascii) : bool :=
  let n := N_of_ascii c in
  ((9 <=? n) && (n <=? 13) || (n =? 32) || (n =? 160))%N.

Fixpoint trimStart (s : string) : string :=
  match s with
  | EmptyString => EmptyString
  | String c s' => if isWhiteSpace c then trimStart s' else s
  end.

Fixpoint trimEnd (s : string) : string :=
  match s with
  | EmptyString => EmptyString
  | String c s' =>
      match trimEnd s' with
      | EmptyString => if isWhiteSpace c then EmptyString else String c EmptyString
      | t => String c t
      end
  end.

(** [s.trim()] *)
Definition trim (s : string) : string := trimEnd (trimStart s).

(** [!s] for a string [s]: only the empty string is falsy. *)
Definition falsy (s : string) : bool :=
  match s with EmptyString => true | String _ _ => false end.

(** Lower-casing of one code unit below U+0100: A-Z, and the Latin-1
    capitals U+00C0..U+00DE except the multiplication sign U+00D7. *)
Definition toLowerCaseUnit (c : ascii) : ascii :=
  let n := N_of_ascii c in
  if ((65 <=? n) && (n <=? 90) || (192 <=? n) && (n <=? 222) && negb (n =? 215))%N
  then ascii_of_N (n + 32) else c.

(** [s.toLowerCase()], for strings of code units below U+0100, where it goes
    unit by unit; [Wide.toLowerCase] below covers a wider repertoire, on
    which it does not. *)
Fixpoint toLowerCase (s : string) : string :=
  match s with
  | EmptyString => EmptyString
  | String c s' => String (toLowerCaseUnit c) (toLowerCase s')
  end.

(** [s.startsWith(p)] *)
Definition startsWith (s p : string) : bool := String.prefix p s.

(** [s.includes(q)]: [q] occurs in [s] at some position. *)
Fixpoint includes (s q : string) : bool :=
  String.prefix q s ||
  match s with
  | EmptyString => false
  | String _ s' => includes s' q
  end.

End Js.

(** ** Data model *)

(** [type Bookmark] *)
Record Bookmark := mkBookmark {
  b_id : string;
  b_title : string;
  b_url : string;
  b_created_at : string;
}.

#[global] Instance Bookmark_eq_dec : EqDecision Bookmark.
Proof. solve_decision. Defined.

(** The [useState] cells of [BookmarkApp]. *)
Record State := mkState {
  bookmarks : list Bookmark;
  title : string;
  url : string;
  loading : bool;
  adding : bool;
  search : string;
}.

Definition set_bookmarks (f : list Bookmark -> list Bookmark) (st : State) : State :=
  mkState (f (bookmarks st)) (title st) (url st) (loading st) (adding st) (search st).
Definition set_title (v : string) (st : State) : State :=
  mkState (bookmarks st) v (url st) (loading st) (adding st) (search st).
Definition set_url (v : string) (st : State) : State :=
  mkState (bookmarks st) (title st) v (loading st) (adding st) (search st).
Definition set_loading (v : bool) (st : State) : State :=
  mkState (bookmarks st) (title st) (url st) v (adding st) (search st).
Definition set_adding (v : bool) (st : State) : State :=
  mkState (bookmarks st) (title st) (url st) (loading st) v (search st).
Definition set_search (v : string) (st : State) : State :=
  mkState (bookmarks st) (title st) (url st) (loading st) (adding st) v.

(** The state of the first render. *)
Definition initial : State := mkState [] "" "" true false "".

(** ** The Gateway and the notification channel, as seen by the component *)

(** The three queries the component sends. *)
Inductive Call :=
| InsertRow (row_title row_url row_user_id : string)
| DeleteEqId (id : string)
| SelectAll.

(** An error object of the client library; as an object it is always truthy. *)
Record PostgrestError := mkError { message : string }.

(** What an awaited query resolves to: [{ data, error }]. *)
Record Response := mkResponse {
  data : option (list Bookmark);
  error : option PostgrestError;
}.

(** The payload of a [postgres_changes] notification, by [eventType]. *)
Inductive Payload :=
| INSERT (new : Bookmark)
| UPDATE (old new : Bookmark)
| DELETE (old : Bookmark).

(** ** Handlers as programs

    A handler is a sequence of state setters and other synchronous effects,
    interrupted by [confirm] dialogs, which block for the user's answer, and
    by [await]s of Gateway queries, at which the handler is suspended. *)

Inductive ToastKind := Success | Failure.

Inductive Proc :=
| Return
| SetBookmarks (f : list Bookmark -> list Bookmark) (k : Proc)
| SetTitle (v : string) (k : Proc)
| SetUrl (v : string) (k : Proc)
| SetLoading (v : bool) (k : Proc)
| SetAdding (v : bool) (k : Proc)
| PreventDefault (k : Proc)
| Toast (kind : ToastKind) (msg : string) (k : Proc)
| ConsoleError (msg : string) (e : PostgrestError) (k : Proc)
| Confirm (msg : string) (k : bool -> Proc)
| Await (c : Call) (k : Response -> Proc).

Declare Scope proc_scope.
Delimit Scope proc_scope with proc.
Bind Scope proc_scope with Proc.
Notation "a ;; k" := (a k%proc)
  (at level 100, k at level 200, right associativity, only parsing) : proc_scope.
Notation "x <- a ;; k" := (a (fun x => k%proc))
  (at level 100, a at next level, k at level 200, right associativity,
   only parsing) : proc_scope.

(** What the outside sees of a run, in order. *)
Inductive Event :=
| EPreventDefault
| EToast (kind : ToastKind) (msg : string)
| EConsoleError (msg : string) (e : PostgrestError)
| EConfirm (msg : string) (answer : bool)
| ECall (c : Call).

Inductive Outcome :=
| Finished
| Suspended (c : Call) (k : Response -> Proc).

(** Runs a handler up to its end or its next [await]. [user] answers the
    [confirm] dialogs. The state returned with [Suspended c k] is the state
    at the moment the query [c] is issued. *)
Fixpoint run (user : string -> bool) (p : Proc) (st : State)
  : State * list Event * Outcome :=
  match p with
  | Return => (st, [], Finished)
  | SetBookmarks f k => run user k (set_bookmarks f st)
  | SetTitle v k => run user k (set_title v st)
  | SetUrl v k => run user k (set_url v st)
  | SetLoading v k => run user k (set_loading v st)
  | SetAdding v k => run user k (set_adding v st)
  | PreventDefault k =>
      let '(st', evs, o) := run user k st in (st', EPreventDefault :: evs, o)
  | Toast kind msg k =>
      let '(st', evs, o) := run user k st in (st', EToast kind msg :: evs, o)
  | ConsoleError msg e k =>
      let '(st', evs, o) := run user k st in (st', EConsoleError msg e :: evs, o)
  | Confirm msg k =>
      let a := user msg in
      let '(st', evs, o) := run user (k a) st in (st', EConfirm msg a :: evs, o)
  | Await c k => (st, [ECall c], Suspended c k)
  end.

(** ** The component's handlers *)

Section Handlers.

Local Open Scope proc_scope.

(** [load], lines 25-32: [setBookmarks(data ?? [])], [setLoading(false)]. *)
Definition load : Proc :=
  r <- Await SelectAll ;;
  SetBookmarks (fun _ => default [] (data r)) ;;
  SetLoading false ;;
  Return.

(** The [postgres_changes] callback, lines 48-54. *)
Definition on_postgres_changes (payload : Payload) : Proc :=
  match payload with
  | INSERT new => SetBookmarks (fun prev => new :: prev) ;; Return
  | DELETE old =>
      SetBookmarks (fun prev => filter (fun b => b_id b <> b_id old) prev) ;; Return
  | UPDATE _ _ => Return
  end.

(** [handleAdd], lines 61-75; [title] and [url] are the values of the
    render the handler belongs to. *)
Definition handleAdd (title url user_id : string) : Proc :=
  PreventDefault ;;
  if Js.falsy (Js.trim title) || Js.falsy (Js.trim url) then Return else
  SetAdding true ;;
  let fullUrl := if Js.startsWith url "http" then url else "https://" +:+ url in
  _ <- Await (InsertRow (Js.trim title) fullUrl user_id) ;;
  SetTitle "" ;;
  SetUrl "" ;;
  SetAdding false ;;
  Toast Success "Bookmark added!" ;;
  Return.

(** [handleDelete], lines 78-100. *)
Definition handleDelete (id : string) : Proc :=
  ok <- Confirm "Delete this bookmark?" ;;
  if negb ok then Return else
  SetBookmarks (fun prev => filter (fun b => b_id b <> id) prev) ;;
  Toast Success "Bookmark deleted!" ;;
  r <- Await (DeleteEqId id) ;;
  match error r with
  | Some e =>
      ConsoleError "Delete error:" e ;;
      r' <- Await SelectAll ;;
      SetBookmarks (fun _ => default [] (data r')) ;;
      Return
  | None => Return
  end.

End Handlers.

(** The part of [handleDelete] that follows the [await] of the delete
    query. *)
Definition after_delete (r : Response) : Proc :=
  match error r with
  | Some e =>
      ConsoleError "Delete error:" e
        (Await SelectAll
           (fun r' => SetBookmarks (fun _ => default [] (data r')) Return))
  | None => Return
  end.

(** [filteredBookmarks], lines 118-121: computed during render from the
    [bookmarks] and [search] cells. *)
Definition filteredBookmarks (st : State) : list Bookmark :=
  filter (fun bm =>
            Js.includes (Js.toLowerCase (b_title bm)) (Js.toLowerCase (search st)) ||
            Js.includes (Js.toLowerCase (b_url bm)) (Js.toLowerCase (search st)))
         (bookmarks st).

(** ** The mounted component

    Between two [await]s a handler runs without interruption; while it is
    suspended, other handlers run. [pending] holds the suspended handlers,
    each waiting for the Gateway's reply to the query it issued. *)

Record System := mkSystem {
  state : State;
  pending : list (Response -> Proc);
  trace : list Event;
}.

Inductive Input :=
| ChangeTitle (v : string)
| ChangeUrl (v : string)
| ChangeSearch (v : string)
| Submit
| ClickDelete (id : string)
| Realtime (payload : Payload)
| Resolve (n : nat) (r : Response).

Section Component.

(** The user's answers to [confirm] and the signed-in user's id. *)
Variable user : string -> bool.
Variable user_id : string.

Definition launch (p : Proc) (sys : System) : System :=
  let '(st, evs, o) := run user p (state sys) in
  mkSystem st
           (match o with
            | Finished => pending sys
            | Suspended _ k => pending sys ++ [k]
            end)
           (trace sys ++ evs).

(** After the first render: both effects have run, [load] is waiting for
    its rows and the channel is subscribed. *)
Definition mount : System := launch load (mkSystem initial [] []).

Definition step (sys : System) (i : Input) : System :=
  let st := state sys in
  match i with
  | ChangeTitle v => mkSystem (set_title v st) (pending sys) (trace sys)
  | ChangeUrl v => mkSystem (set_url v st) (pending sys) (trace sys)
  | ChangeSearch v => mkSystem (set_search v st) (pending sys) (trace sys)
  | Submit =>
      (* the submit button is disabled while [adding]; the browser's own
         check of the url field, which keeps some submits from reaching the
         handler, is not modelled, so every run of the component is a run
         of the model and the model has more *)
      if adding st then sys else launch (handleAdd (title st) (url st) user_id) sys
  | ClickDelete id =>
      (* one delete button per rendered entry *)
      if decide (id ∈ b_id <$> filteredBookmarks st)
      then launch (handleDelete id) sys else sys
  | Realtime payload => launch (on_postgres_changes payload) sys
  | Resolve n r =>
      match pending sys !! n with
      | Some k => launch (k r) (mkSystem st (delete n (pending sys)) (trace sys))
      | None => sys
      end
  end.

Definition steps (sys : System) (inputs : list Input) : System :=
  fold_left step inputs sys.

End Component.

(** ** Lower-casing beyond U+00FF

    [String.prototype.toLowerCase] on sequences of UTF-16 code units, for
    the code units of Basic Latin, Latin-1 and the Greek letters
    U+0391..U+03A9 and U+03B1..U+03C9. On these it follows the Unicode
    default case conversion: every capital goes to its small letter, except
    that a capital sigma at the end of a word goes to the final sigma
    U+03C2. A string with a code unit outside this repertoire has no
    lower-casing here. *)

Module Wide.

Definition jsstring := list N.

Definition greek_capital (u : N) : bool :=
  ((913 <=? u) && (u <=? 929) || (931 <=? u) && (u <=? 937))%N.

Definition greek_small (u : N) : bool :=
  ((945 <=? u) && (u <=? 969))%N.

Definition in_repertoire (u : N) : bool :=
  (u <? 256)%N || greek_capital u || greek_small u.

(** The property Cased of the Unicode character database, on the
    repertoire. *)
Definition cased (u : N) : bool :=
  ((65 <=? u) && (u <=? 90) || (97 <=? u) && (u <=? 122) ||
   (u =? 170) || (u =? 181) || (u =? 186) ||
   (192 <=? u) && (u <=? 214) || (216 <=? u) && (u <=? 246) ||
   (248 <=? u) && (u <=? 255))%N
  || greek_capital u || greek_small u.

(** The property Case_Ignorable, on the repertoire: the apostrophe, the full
    stop, the colon, the circumflex, the grave accent, and U+00A8, U+00AD,
    U+00AF, U+00B4, U+00B7, U+00B8. *)
Definition case_ignorable (u : N) : bool :=
  ((u =? 39) || (u =? 46) || (u =? 58) || (u =? 94) || (u =? 96) ||
   (u =? 168) || (u =? 173) || (u =? 175) || (u =? 180) || (u =? 183) ||
   (u =? 184))%N.

(** The small letter of a code unit, its context left aside. *)
Definition lower_unit (u : N) : N :=
  if ((65 <=? u) && (u <=? 90) ||
      (192 <=? u) && (u <=? 222) && negb (u =? 215))%N
     || greek_capital u
  then (u + 32)%N else u.

Definition capital_sigma : N := 931.
Definition final_sigma : N := 962.

(** What follows is any number of case-ignorable units and then a cased
    one. *)
Fixpoint followed_by_cased (rest : jsstring) : bool :=
  match rest with
  | [] => false
  | u :: rest' => if case_ignorable u then followed_by_cased rest' else cased u
  end.

(** Lower-cases [s]; [before] tells whether what precedes [s] is a cased
    unit and then any number of case-ignorable ones. *)
Fixpoint lower_from (before : bool) (s : jsstring) : jsstring :=
  match s with
  | [] => []
  | u :: rest =>
      (if (u =? capital_sigma)%N && before && negb (followed_by_cased rest)
       then final_sigma else lower_unit u)
      :: lower_from (if case_ignorable u then before else cased u) rest
  end.

(** [s.toLowerCase()] *)
Definition toLowerCase (s : jsstring) : option jsstring :=
  if forallb in_repertoire s then Some (lower_from false s) else None.

Fixpoint startsWith (s p : jsstring) : bool :=
  match p, s with
  | [], _ => true
  | _ :: _, [] => false
  | a :: p', b :: s' => (a =? b)%N && startsWith s' p'
  end.

(** [s.includes(q)] *)
Fixpoint includes (s q : jsstring) : bool :=
  startsWith s q ||
  match s with
  | [] => false
  | _ :: s' => includes s' q
  end.

Record Bookmark := mkBookmark {
  w_id : jsstring;
  w_title : jsstring;
  w_url : jsstring;
  w_created_at : jsstring;
}.

(** The test of the search filter, lines 119-120. *)
Definition entry_matches (bm : Bookmark) (search : jsstring) : option bool :=
  match toLowerCase (w_title bm), toLowerCase (w_url bm), toLowerCase search with
  | Some lt, Some lu, Some lq => Some (includes lt lq || includes lu lq)
  | _, _, _ => None
  end.

(** [filteredBookmarks], lines 118-121. *)
Fixpoint filteredBookmarks (l : list Bookmark) (search : jsstring)
  : option (list Bookmark) :=
  match l with
  | [] => Some []
  | bm :: l' =>
      match entry_matches bm search, filteredBookmarks l' search with
      | Some keep, Some r => Some (if keep then bm :: r else r)
      | _, _ => None
      end
  end.

End Wide.

(** A string of code units below U+0100 as a sequence of UTF-16 code
    units, and an entry likewise. *)
Definition embed (s : string) : Wide.jsstring :=
  N_of_ascii <$> list_ascii_of_string s.

Definition embed_bookmark (bm : Bookmark) : Wide.Bookmark :=
  Wide.mkBookmark (embed (b_id bm)) (embed (b_title bm)) (embed (b_url bm))
    (embed (b_created_at bm)).

(** ** What the claims speak about, in the specification's words *)

(** [C] is a capital letter and [c] the small letter that goes with it,
    among the code units below U+0100: A-Z with a-z, and the Latin-1
    capitals U+00C0..U+00D6 and U+00D8..U+00DE with U+00E0..U+00F6 and
    U+00F8..U+00FE. *)
Definition capital_of (C c : ascii) : Prop :=
  let n := N_of_ascii C in
  (65 <= n <= 90 \/ 192 <= n <= 214 \/ 216 <= n <= 222)%N /\
  N_of_ascii c = (n + 32)%N.

(** Two code units are the same letter up to case: they are equal, or one
    is the capital of the other. *)
Definition same_letter (c d : ascii) : Prop :=
  c = d \/ capital_of c d \/ capital_of d c.

(** Two strings are equal up to the case of their letters: they have the
    same length and agree letter by letter. *)
Inductive eq_ignoring_case : string -> string -> Prop :=
| eic_empty : eq_ignoring_case "" ""
| eic_letter c d s t :
    same_letter c d -> eq_ignoring_case s t ->
    eq_ignoring_case (String c s) (String d t).

(** [q] is a case-insensitive substring of [s]: some stretch of [s] equals
    [q] up to case. *)
Definition ci_substring (q s : string) : Prop :=
  exists pre mid post, s = pre +:+ mid +:+ post /\ eq_ignoring_case mid q.

(** An entry matches a query. *)
Definition matches (q : string) (bm : Bookmark) : Prop :=
  ci_substring q (b_title bm) \/ ci_substring q (b_url bm).










(** [r] is [l] restricted to its entries satisfying [P]: those entries, each
    as often as in [l] and in the order of [l], and no others. *)
Inductive selected (P : Bookmark -> Prop) : list Bookmark -> list Bookmark -> Prop :=
| selected_nil : selected P [] []
| selected_skip b l r : ~ P b -> selected P l r -> selected P (b :: l) r
| selected_take b l r : P b -> selected P l r -> selected P (b :: l) (b :: r).

(** [r] is [l] with every entry of id [i] taken out and every other entry
    kept, in the order of [l]. *)
Definition removed_id (i : string) (l r : list Bookmark) : Prop :=
  selected (fun b => b_id b <> i) l r.

(** The ids held in a list. *)
Definition ids (l : list Bookmark) : list string := b_id <$> l.

(** A run issues no Gateway query. *)
Definition no_call (evs : list Event) : Prop :=
  forall c, ECall c ∉ evs.

(** ** The continuations of the handlers, by name

    What each handler does once the query it awaits has resolved. *)

(** [load] after its [select]. *)
Definition after_load (r : Response) : Proc :=
  SetBookmarks (fun _ => default [] (data r)) (SetLoading false Return).

(** [handleAdd] after its [insert]; the answer is not read. *)
Definition after_insert (_ : Response) : Proc :=
  SetTitle "" (SetUrl "" (SetAdding false (Toast Success "Bookmark added!" Return))).

(** [handleDelete] after the [select] that follows a failed [delete]. *)
Definition after_reload (r : Response) : Proc :=
  SetBookmarks (fun _ => default [] (data r)) Return.

(** The continuations that the handlers of the component can leave pending. *)
Definition known_continuation (k : Response -> Proc) : Prop :=
  k = after_load \/ k = after_insert \/ k = after_delete \/ k = after_reload.

(** The state after the realtime handler has run on a notification. *)
Definition notified (user : string -> bool) (p : Payload) (st : State) : State :=
  (run user (on_postgres_changes p) st).1.1.

(** ** The conditions of the rendered blocks, lines 159-203 *)

(** The counter line: [!loading && bookmarks.length > 0]. *)
Definition showCount (st : State) : bool :=
  negb (loading st) && (0 <? length (bookmarks st))%nat.

(** The search bar: [bookmarks.length > 0]. *)
Definition showSearchBar (st : State) : bool :=
  (0 <? length (bookmarks st))%nat.

(** The spinner: [loading]. *)
Definition showSpinner (st : State) : bool := loading st.

(** [No bookmarks match your search.]:
    [!loading && filteredBookmarks.length === 0 && bookmarks.length > 0]. *)
Definition showNoMatch (st : State) : bool :=
  negb (loading st) && (length (filteredBookmarks st) =? 0)%nat &&
  (0 <? length (bookmarks st))%nat.

(** [No bookmarks yet. Add your first one above!]:
    [!loading && bookmarks.length === 0]. *)
Definition showEmpty (st : State) : bool :=
  negb (loading st) && (length (bookmarks st) =? 0)%nat.

(** The submit button: [disabled={adding}] and its label. *)
Definition submitDisabled (st : State) : bool := adding st.
Definition submitLabel (st : State) : string :=
  if adding st then "Adding..." else "Add Bookmark".

(** ** Inputs that keep ids apart

    An input brings no second copy of an id: an insert notification carries
    an id that the list does not hold, and the rows of a reply have distinct
    ids. *)

Definition brings_no_duplicate (sys : System) (i : Input) : Prop :=
  match i with
  | Realtime (INSERT new) => b_id new ∉ ids (bookmarks (state sys))
  | Resolve _ r => NoDup (ids (default [] (data r)))
  | _ => True
  end.

Fixpoint bring_no_duplicate (user : string -> bool) (user_id : string)
    (sys : System) (inputs : list Input) : Prop :=
  match inputs with
  | [] => True
  | i :: rest =>
      brings_no_duplicate sys i /\
      bring_no_duplicate user user_id (step user user_id sys i) rest
  end.

(** ** Sample data *)

Definition bm_github : Bookmark :=
  mkBookmark "b1" "GitHub" "https://github.com" "2026-01-02T10:00:00Z".
Definition bm_docs : Bookmark :=
  mkBookmark "b2" "Docs" "https://docs.example.com" "2026-01-01T10:00:00Z".

(** Two entries that a query can only reach through their titles. *)
Definition bm_title_github : Bookmark :=
  mkBookmark "b3" "GitHub" "https://example.com/code" "2026-01-04T10:00:00Z".
Definition bm_title_docs : Bookmark :=
  mkBookmark "b4" "Docs" "https://example.com/manual" "2026-01-03T10:00:00Z".

(** The title [U+039A U+039F U+03A3 U+039C U+039F U+03A3] (kosmos, in
    capitals), its first three letters as a query, and an entry with that
    title. *)
Definition kosmos_title : Wide.jsstring := [922; 927; 931; 924; 927; 931]%N.
Definition kos_query : Wide.jsstring := [922; 927; 931]%N.
Definition bm_kosmos : Wide.Bookmark :=
  Wide.mkBookmark (embed "b5") kosmos_title (embed "https://example.com/world")
    (embed "2026-01-05T10:00:00Z").

(** A successful [select] and a failed query. *)
Definition rows (l : list Bookmark) : Response := mkResponse (Some l) None.
Definition failed (e : PostgrestError) : Response := mkResponse None (Some e).

(** A user who accepts every dialog. *)
Definition always_yes (_ : string) : bool := true.

(** ** Strings *)

Section Strings.

Lemma append_cons (c : ascii) (s t : string) :
  String c s +:+ t = String c (s +:+ t).
Proof. reflexivity. Qed.

Lemma prefix_spec (p s : string) :
  String.prefix p s = true <-> exists post, s = p +:+ post.
Proof.
  revert s. induction p as [|c p IH]; intros s.
  - destruct s; simpl; split; eauto.
  - destruct s as [|d s]; simpl.
    + split; [discriminate | intros [post H]; discriminate].
    + destruct (ascii_dec c d) as [->|Hne].
      * rewrite IH. split; intros [post H]; exists post;
          rewrite ?append_cons in *; congruence.
      * split; [discriminate |].
        intros [post H]. rewrite append_cons in H. congruence.
Qed.

Lemma includes_empty_string (q : string) :
  Js.includes "" q = String.prefix q "" || false.
Proof. reflexivity. Qed.

Lemma includes_cons (c : ascii) (s q : string) :
  Js.includes (String c s) q = String.prefix q (String c s) || Js.includes s q.
Proof. reflexivity. Qed.

Lemma includes_spec (s q : string) :
  Js.includes s q = true <-> exists pre post, s = pre +:+ q +:+ post.
Proof.
  induction s as [|c s IH];
    rewrite ?includes_empty_string, ?includes_cons, orb_true_iff, prefix_spec.
  - split.
    + intros [[post H]|H]; [exists "", post; exact H | discriminate].
    + intros (pre & post & H). left. destruct pre; [eauto | discriminate].
  - rewrite IH. split.
    + intros [[post H]|(pre & post & H)].
      * exists "", post. exact H.
      * exists (String c pre), post. now rewrite append_cons, H.
    + intros (pre & post & H). destruct pre as [|d pre].
      * left. eauto.
      * right. exists pre, post. rewrite append_cons in H. congruence.
Qed.

Lemma includes_empty (s : string) : Js.includes s "" = true.
Proof. apply includes_spec. exists "", s. reflexivity. Qed.

Lemma toLowerCase_append (a b : string) :
  Js.toLowerCase (a +:+ b) = Js.toLowerCase a +:+ Js.toLowerCase b.
Proof.
  induction a as [|c a IH]; [reflexivity |].
  rewrite append_cons. simpl. now rewrite IH, append_cons.
Qed.

Lemma toLowerCase_split (s a b : string) :
  Js.toLowerCase s = a +:+ b ->
  exists s1 s2, s = s1 +:+ s2 /\ Js.toLowerCase s1 = a /\ Js.toLowerCase s2 = b.
Proof.
  revert s. induction a as [|c a IH]; intros s H.
  - exists "", s. auto.
  - destruct s as [|d s]; rewrite append_cons in H; simpl in H; [discriminate |].
    injection H as Hc Hs. destruct (IH _ Hs) as (s1 & s2 & -> & <- & <-).
    exists (String d s1), s2. simpl. now rewrite Hc.
Qed.

Lemma N_of_ascii_inj (c d : ascii) : N_of_ascii c = N_of_ascii d -> c = d.
Proof.
  intros H. rewrite <- (ascii_N_embedding c), <- (ascii_N_embedding d).
  now rewrite H.
Qed.

Lemma N_of_toLowerCaseUnit (c : ascii) :
  N_of_ascii (Js.toLowerCaseUnit c) =
  let n := N_of_ascii c in
  if ((65 <=? n) && (n <=? 90) || (192 <=? n) && (n <=? 222) && negb (n =? 215))%N
  then (n + 32)%N else n.
Proof.
  unfold Js.toLowerCaseUnit. cbv zeta.
  pose proof (N_ascii_bounded c) as Hb.
  destruct ((65 <=? N_of_ascii c) && (N_of_ascii c <=? 90)
            || (192 <=? N_of_ascii c) && (N_of_ascii c <=? 222)
               && negb (N_of_ascii c =? 215))%N eqn:E; [| reflexivity].
  apply N_ascii_embedding.
  apply orb_true_iff in E as [E|E].
  - apply andb_true_iff in E as [_ E]. apply N.leb_le in E. lia.
  - apply andb_true_iff in E as [E _]. apply andb_true_iff in E as [_ E].
    apply N.leb_le in E. lia.
Qed.

(** The lower-casing of the model sends two code units to the same unit
    exactly when they are the same letter up to case. *)
Lemma same_letter_spec (c d : ascii) :
  same_letter c d <-> Js.toLowerCaseUnit c = Js.toLowerCaseUnit d.
Proof.
  assert (Hiff : Js.toLowerCaseUnit c = Js.toLowerCaseUnit d <->
                 N_of_ascii (Js.toLowerCaseUnit c) = N_of_ascii (Js.toLowerCaseUnit d)).
  { split; [now intros -> | apply N_of_ascii_inj]. }
  rewrite Hiff, !N_of_toLowerCaseUnit. cbv zeta.
  unfold same_letter, capital_of. cbv zeta.
  assert (Heq : c = d <-> N_of_ascii c = N_of_ascii d).
  { split; [now intros -> | apply N_of_ascii_inj]. }
  rewrite Heq.
  generalize (N_of_ascii c) as n, (N_of_ascii d) as m. intros n m.
  destruct (N.leb_spec 65 n), (N.leb_spec n 90), (N.leb_spec 192 n),
    (N.leb_spec n 222), (N.eqb_spec n 215),
    (N.leb_spec 65 m), (N.leb_spec m 90), (N.leb_spec 192 m),
    (N.leb_spec m 222), (N.eqb_spec m 215); simpl; lia.
Qed.

Lemma eq_ignoring_case_spec (s t : string) :
  eq_ignoring_case s t <-> Js.toLowerCase s = Js.toLowerCase t.
Proof.
  split.
  - induction 1 as [|c d s t Hcd _ IH]; simpl; [reflexivity |].
    apply same_letter_spec in Hcd. congruence.
  - revert t. induction s as [|c s IH]; intros [|d t] H; simpl in H;
      try discriminate; [constructor |].
    injection H as Hc Hs. constructor; [now apply same_letter_spec | auto].
Qed.

(** The test of the search filter decides the case-insensitive substring. *)
Lemma includes_lower_spec (s q : string) :
  Js.includes (Js.toLowerCase s) (Js.toLowerCase q) = true <-> ci_substring q s.
Proof.
  rewrite includes_spec. split.
  - intros (pre & post & H).
    apply toLowerCase_split in H as (s1 & s23 & -> & _ & H).
    apply toLowerCase_split in H as (s2 & s3 & -> & H & _).
    exists s1, s2, s3. split; [reflexivity | now apply eq_ignoring_case_spec].
  - intros (pre & mid & post & -> & H). apply eq_ignoring_case_spec in H.
    exists (Js.toLowerCase pre), (Js.toLowerCase post).
    now rewrite !toLowerCase_append, H.
Qed.

Lemma falsy_spec (s : string) : Js.falsy s = true <-> s = "".
Proof. destruct s; simpl; split; congruence. Qed.

End Strings.

(** ** Lists *)

Section Lists.

Context (P : Bookmark -> Prop) `{Pdec : !forall b, Decision (P b)}.

Lemma filter_selected (l : list Bookmark) : selected P l (filter P l).
Proof.
  induction l as [|b l IH]; [constructor |].
  destruct (decide (P b)) as [Hb|Hb].
  - rewrite filter_cons_True by exact Hb. now constructor.
  - rewrite filter_cons_False by exact Hb. now constructor.
Qed.

Lemma selected_functional (l r r' : list Bookmark) :
  selected P l r -> selected P l r' -> r = r'.
Proof.
  intros H. revert r'. induction H as [|b l r Hb _ IH|b l r Hb _ IH];
    intros r' H'; inversion H'; subst; try tauto; f_equal; auto.
Qed.

Lemma selected_filter (l r : list Bookmark) : selected P l r <-> r = filter P l.
Proof.
  split.
  - intros H. apply (selected_functional l); [exact H | apply filter_selected].
  - intros ->. apply filter_selected.
Qed.

Lemma selected_elem_of (l r : list Bookmark) (b : Bookmark) :
  selected P l r -> b ∈ r <-> b ∈ l /\ P b.
Proof.
  intros H. apply selected_filter in H as ->.
  rewrite list_elem_of_filter. tauto.
Qed.

Lemma selected_sublist (l r : list Bookmark) : selected P l r -> r `sublist_of` l.
Proof. intros H. apply selected_filter in H as ->. apply sublist_filter. Qed.

End Lists.

Lemma filter_id_not_in (i : string) (l : list Bookmark) :
  i ∉ ids (filter (fun b => b_id b <> i) l).
Proof.
  unfold ids. rewrite list_elem_of_fmap. intros (b & Hi & Hb).
  apply list_elem_of_filter in Hb as [Hne _]. congruence.
Qed.

Lemma filter_id_absent (i : string) (l : list Bookmark) :
  i ∉ ids l -> filter (fun b => b_id b <> i) l = l.
Proof.
  unfold ids. induction l as [|b l IH]; intros Hi; [reflexivity |].
  rewrite fmap_cons, not_elem_of_cons in Hi. destruct Hi as [Hb Hl].
  rewrite filter_cons_True by congruence. now rewrite IH.
Qed.

Lemma filter_id_twice (i : string) (l : list Bookmark) :
  filter (fun b => b_id b <> i) (filter (fun b => b_id b <> i) l) =
  filter (fun b => b_id b <> i) l.
Proof. apply filter_id_absent, filter_id_not_in. Qed.

Lemma cons_neq {A} (x : A) (l : list A) : x :: l <> l.
Proof. intros H. apply (f_equal length) in H. simpl in H. lia. Qed.

(** ** The realtime handler: insert notifications *)

(** The insert branch puts the row in front of the list whatever the list
    holds. *)
Lemma realtime_insert_run (user : string -> bool) (new : Bookmark) (st : State) :
  run user (on_postgres_changes (INSERT new)) st =
  (set_bookmarks (fun prev => new :: prev) st, [], Finished).
Proof. reflexivity. Qed.

Lemma realtime_insert_known_id (user : string -> bool) (new : Bookmark) (st : State) :
  b_id new ∈ ids (bookmarks st) ->
  ~ NoDup (ids (bookmarks (run user (on_postgres_changes (INSERT new)) st).1.1)).
Proof.
  intros Hin Hnd. rewrite realtime_insert_run in Hnd. simpl in Hnd.
  apply NoDup_cons in Hnd as [Hnew _]. exact (Hnew Hin).
Qed.

(** C1, evaluated on the code: the list can come to hold one id twice. Once
    the initial load has returned the row [bm_github], an insert notification
    for that same row is put in front of the list: the list is then
    [bm_github; bm_github], it is not the list [bm_github] it was before the
    notification, and its ids are not distinct. *)
Theorem realtime_insert_duplicates_known_id (user : string -> bool) (user_id : string) :
  let before := steps user user_id (mount user) [Resolve 0 (rows [bm_github])] in
  let after := step user user_id before (Realtime (INSERT bm_github)) in
  bookmarks (state before) = [bm_github] /\
  bookmarks (state after) = [bm_github; bm_github] /\
  bookmarks (state after) <> bookmarks (state before) /\
  ~ NoDup (ids (bookmarks (state after))).
Proof.
  cbv zeta. repeat split; try reflexivity.
  - apply cons_neq.
  - intros Hnd. apply NoDup_cons in Hnd as [Hnew _]. apply Hnew. left.
Qed.

(** C2, evaluated on the code: the insert branch is not idempotent. The same
    insert notification delivered a second time puts the row in front of the
    list a second time, so the list after two deliveries is one entry longer
    than, and different from, the list after one. *)
Theorem realtime_insert_twice_differs
    (user : string -> bool) (new : Bookmark) (st : State) :
  let once := (run user (on_postgres_changes (INSERT new)) st).1.1 in
  let twice := (run user (on_postgres_changes (INSERT new)) once).1.1 in
  bookmarks once = new :: bookmarks st /\
  bookmarks twice = new :: new :: bookmarks st /\
  bookmarks twice <> bookmarks once.
Proof.
  cbv zeta. rewrite !realtime_insert_run. simpl.
  repeat split. apply cons_neq.
Qed.

(** ** [handleAdd] *)

(** [handleAdd] never writes the [bookmarks] cell, neither before nor after
    its [await]. *)
Lemma handleAdd_keeps_bookmarks
    (user : string -> bool) (t u uid : string) (st : State) :
  bookmarks (run user (handleAdd t u uid) st).1.1 = bookmarks st.
Proof.
  unfold handleAdd. simpl.
  destruct (Js.falsy (Js.trim t) || Js.falsy (Js.trim u)); reflexivity.
Qed.

(** C3, evaluated on the code: a failed insert is reported as a success.
    With [A] and [https://a.com] in the form, the user submits and the
    Gateway answers the insert with an error [e]: the handler does not look
    at the answer, shows the success toast and shows no failure toast. *)
Theorem handleAdd_failed_insert_reports_success
    (user : string -> bool) (user_id : string) (e : PostgrestError) :
  let sys := steps user user_id (mount user)
               [Resolve 0 (rows []); ChangeTitle "A"; ChangeUrl "https://a.com";
                Submit; Resolve 0 (failed e)] in
  trace sys = [ECall SelectAll; EPreventDefault;
               ECall (InsertRow "A" "https://a.com" user_id);
               EToast Success "Bookmark added!"] /\
  (forall msg, EToast Failure msg ∉ trace sys) /\
  pending sys = [].
Proof.
  cbv zeta. repeat split.
  intros msg Hin. vm_compute in Hin.
  repeat (apply elem_of_cons in Hin as [Hin|Hin]; [discriminate |]).
  now apply elem_of_nil in Hin.
Qed.

(** C4, evaluated on the code: [handleAdd] makes no optimistic insertion.
    With the list [l] loaded and [A], [https://a.com] in the form, the user
    submits: at the moment the insert query is issued, and for as long as it
    is pending, the list is still [l]; no entry was added to it, under a
    temporary id or otherwise. *)
Theorem handleAdd_adds_no_pending_entry
    (user : string -> bool) (user_id : string) (l : list Bookmark) :
  let sys := steps user user_id (mount user)
               [Resolve 0 (rows l); ChangeTitle "A"; ChangeUrl "https://a.com";
                Submit] in
  trace sys = [ECall SelectAll; EPreventDefault;
               ECall (InsertRow "A" "https://a.com" user_id)] /\
  length (pending sys) = 1 /\
  bookmarks (state sys) = l.
Proof. cbv zeta. repeat split. Qed.

(** C7: when the title or the url is blank (empty once trimmed),
    [handleAdd] stops at its guard: the state, and so the list, is what it
    was, the handler is finished, and no Gateway query was issued. *)
Theorem handleAdd_blank_input_is_noop
    (user : string -> bool) (t u uid : string) (st : State) :
  Js.trim t = "" \/ Js.trim u = "" ->
  run user (handleAdd t u uid) st = (st, [EPreventDefault], Finished) /\
  bookmarks (run user (handleAdd t u uid) st).1.1 = bookmarks st /\
  no_call (run user (handleAdd t u uid) st).1.2.
Proof.
  intros Hblank.
  assert (Hrun : run user (handleAdd t u uid) st = (st, [EPreventDefault], Finished)).
  { unfold handleAdd. simpl.
    assert (Js.falsy (Js.trim t) || Js.falsy (Js.trim u) = true) as ->; [| reflexivity].
    apply orb_true_iff. rewrite !falsy_spec. exact Hblank. }
  rewrite Hrun. repeat split.
  intros c Hin. simpl in Hin.
  apply elem_of_cons in Hin as [Hin|Hin]; [discriminate |].
  now apply elem_of_nil in Hin.
Qed.

(** The boundary cases of the specification: [add("", "https://a.com")] and
    [add("A", "")]. *)
Lemma handleAdd_blank_boundary :
  (Js.trim "" = "" \/ Js.trim "https://a.com" = "") /\
  (Js.trim "A" = "" \/ Js.trim "" = "") /\
  run always_yes (handleAdd "" "https://a.com" "u1") initial =
    (initial, [EPreventDefault], Finished) /\
  run always_yes (handleAdd "A" "" "u1") initial =
    (initial, [EPreventDefault], Finished).
Proof.
  assert (H1 : Js.trim "" = "" \/ Js.trim "https://a.com" = "") by (left; reflexivity).
  assert (H2 : Js.trim "A" = "" \/ Js.trim "" = "") by (right; reflexivity).
  split; [exact H1 |]. split; [exact H2 |]. split.
  - exact (proj1 (handleAdd_blank_input_is_noop always_yes "" "https://a.com" "u1" initial H1)).
  - exact (proj1 (handleAdd_blank_input_is_noop always_yes "A" "" "u1" initial H2)).
Defined.

(** ** [handleDelete] *)

Lemma handleDelete_run (user : string -> bool) (id : string) (st : State) :
  user "Delete this bookmark?" = true ->
  run user (handleDelete id) st =
    (set_bookmarks (filter (fun b => b_id b <> id)) st,
     [EConfirm "Delete this bookmark?" true;
      EToast Success "Bookmark deleted!";
      ECall (DeleteEqId id)],
     Suspended (DeleteEqId id) after_delete).
Proof. intros Hyes. unfold handleDelete. simpl. rewrite Hyes. reflexivity. Qed.

(** C5: once the user has confirmed, [handleDelete id] takes the entries of
    id [id] out of the list and only then issues the delete query, so the
    removal is in place while the query is pending. If the Gateway answers
    without an error, the handler ends and changes nothing more. If it
    answers with an error, the handler logs it and asks the Gateway for the
    full list; the rows that come back, in the order they come back, replace
    the list (the empty list if none come back). So a Gateway that still
    holds [X; Y] restores the list [X; Y]. *)
Theorem handleDelete_optimistic_removal_and_reload
    (user : string -> bool) (id : string) (st : State) :
  user "Delete this bookmark?" = true ->
  exists k,
    run user (handleDelete id) st =
      (set_bookmarks (filter (fun b => b_id b <> id)) st,
       [EConfirm "Delete this bookmark?" true;
        EToast Success "Bookmark deleted!";
        ECall (DeleteEqId id)],
       Suspended (DeleteEqId id) k) /\
    (id ∉ ids (bookmarks (run user (handleDelete id) st).1.1)) /\
    (forall r st1, error r = None -> run user (k r) st1 = (st1, [], Finished)) /\
    (forall r e st1, error r = Some e ->
       exists k',
         run user (k r) st1 =
           (st1, [EConsoleError "Delete error:" e; ECall SelectAll],
            Suspended SelectAll k') /\
         (forall r' st2,
            run user (k' r') st2 =
              (set_bookmarks (fun _ => default [] (data r')) st2, [], Finished)) /\
         (forall X Y st2,
            bookmarks (run user (k' (rows [X; Y])) st2).1.1 = [X; Y])).
Proof.
  intros Hyes. exists after_delete. rewrite (handleDelete_run _ _ _ Hyes).
  split; [reflexivity |]. split; [apply filter_id_not_in |]. split.
  - intros r st1 Hr. unfold after_delete. now rewrite Hr.
  - intros r e st1 Hr. unfold after_delete. rewrite Hr.
    eexists. split; [reflexivity |]. split; reflexivity.
Qed.

(** The scenario of the specification, on the mounted component: the list is
    [bm_github; bm_docs], the user deletes [bm_github], the Gateway refuses,
    and the reload brings [bm_github; bm_docs] back. *)
Lemma handleDelete_failure_restores :
  always_yes "Delete this bookmark?" = true /\
  (exists k,
     run always_yes (handleDelete "b1") (mkState [bm_github; bm_docs] "" "" false false "") =
       (mkState [bm_docs] "" "" false false "",
        [EConfirm "Delete this bookmark?" true;
         EToast Success "Bookmark deleted!";
         ECall (DeleteEqId "b1")],
        Suspended (DeleteEqId "b1") k)) /\
  bookmarks (state (steps always_yes "u1" (mount always_yes)
                      [Resolve 0 (rows [bm_github; bm_docs]);
                       ClickDelete "b1";
                       Resolve 0 (failed (mkError "network"));
                       Resolve 0 (rows [bm_github; bm_docs])]))
    = [bm_github; bm_docs].
Proof.
  split; [reflexivity |]. split; [| reflexivity].
  destruct (handleDelete_optimistic_removal_and_reload always_yes "b1"
              (mkState [bm_github; bm_docs] "" "" false false "") eq_refl)
    as (k & Hrun & _).
  exists k. exact Hrun.
Defined.

(** ** The realtime handler: delete notifications *)

Lemma realtime_delete_run (user : string -> bool) (old : Bookmark) (st : State) :
  run user (on_postgres_changes (DELETE old)) st =
  (set_bookmarks (filter (fun b => b_id b <> b_id old)) st, [], Finished).
Proof. reflexivity. Qed.

(** C8: a delete notification leaves the list with every entry of the
    notified id taken out and the others kept in order, so the id is no
    longer in the list; when the id is not in the list, the state is
    unchanged; and a second delivery of the notification changes nothing. *)
Theorem realtime_delete_removes_or_noop
    (user : string -> bool) (old : Bookmark) (st : State) :
  let st' := (run user (on_postgres_changes (DELETE old)) st).1.1 in
  removed_id (b_id old) (bookmarks st) (bookmarks st') /\
  (b_id old ∉ ids (bookmarks st')) /\
  (b_id old ∉ ids (bookmarks st) -> st' = st) /\
  (run user (on_postgres_changes (DELETE old)) st').1.1 = st'.
Proof.
  cbv zeta. rewrite !realtime_delete_run. simpl. repeat split.
  - apply (filter_selected (fun b => b_id b <> b_id old)).
  - apply filter_id_not_in.
  - intros Habs. unfold set_bookmarks. rewrite (filter_id_absent _ _ Habs).
    now destruct st.
  - unfold set_bookmarks. simpl. now rewrite filter_id_twice.
Qed.

(** A delete notification for [bm_github] on a list that only holds
    [bm_docs]. *)
Lemma realtime_delete_absent_example :
  (b_id bm_github ∉ ids [bm_docs]) /\
  (run always_yes (on_postgres_changes (DELETE bm_github))
     (mkState [bm_docs] "" "" false false "")).1.1 =
  mkState [bm_docs] "" "" false false "".
Proof.
  assert (Habs : b_id bm_github ∉ ids [bm_docs]).
  { intros Hin. apply elem_of_cons in Hin as [Hin|Hin]; [discriminate |].
    now apply elem_of_nil in Hin. }
  split; [exact Habs |].
  exact (proj1 (proj2 (proj2 (realtime_delete_removes_or_noop always_yes bm_github
                                (mkState [bm_docs] "" "" false false ""))))
               Habs).
Defined.

(** C10: the optimistic removal of [handleDelete id], once confirmed, and
    the delete branch of the realtime handler both leave the list with every
    entry of the given id taken out, however many there are, and with every
    other entry kept, unchanged and in the order it had. *)
Theorem delete_paths_remove_exactly_the_id
    (user : string -> bool) (id : string) (old : Bookmark) (st : State) :
  user "Delete this bookmark?" = true ->
  removed_id id (bookmarks st) (bookmarks (run user (handleDelete id) st).1.1) /\
  removed_id (b_id old) (bookmarks st)
    (bookmarks (run user (on_postgres_changes (DELETE old)) st).1.1).
Proof.
  intros Hyes. rewrite (handleDelete_run _ _ _ Hyes), realtime_delete_run. simpl.
  split.
  - apply (filter_selected (fun b => b_id b <> id)).
  - apply (filter_selected (fun b => b_id b <> b_id old)).
Qed.

(** A list that holds the id [b1] twice: both paths take out both entries
    and keep [bm_docs]. *)
Lemma delete_paths_example :
  always_yes "Delete this bookmark?" = true /\
  removed_id "b1" [bm_github; bm_docs; bm_github] [bm_docs] /\
  bookmarks (run always_yes (handleDelete "b1")
               (mkState [bm_github; bm_docs; bm_github] "" "" false false "")).1.1
    = [bm_docs] /\
  bookmarks (run always_yes (on_postgres_changes (DELETE bm_github))
               (mkState [bm_github; bm_docs; bm_github] "" "" false false "")).1.1
    = [bm_docs].
Proof.
  split; [reflexivity |]. split; [| split; reflexivity].
  exact (proj1 (delete_paths_remove_exactly_the_id always_yes "b1" bm_github
                  (mkState [bm_github; bm_docs; bm_github] "" "" false false "")
                  eq_refl)).
Defined.

(** ** Search *)

Lemma filteredBookmarks_selected (st : State) :
  selected (matches (search st)) (bookmarks st) (filteredBookmarks st).
Proof.
  unfold filteredBookmarks, matches.
  induction (bookmarks st) as [|bm l IH]; [constructor |].
  rewrite filter_cons.
  destruct (decide _) as [Hm|Hm]; rewrite Is_true_true, orb_true_iff,
    !includes_lower_spec in Hm; now constructor.
Qed.


(** * Further properties of the component *)

(** ** More on strings *)


Lemma append_empty_r (s : string) : s +:+ "" = s.
Proof.
  induction s as [|c s IH]; [reflexivity |]. now rewrite append_cons, IH.
Qed.

Lemma append_assoc (a b c : string) : (a +:+ b) +:+ c = a +:+ b +:+ c.
Proof.
  induction a as [|x a IH]; [reflexivity |]. now rewrite !append_cons, IH.
Qed.

Lemma includes_refl (s : string) : Js.includes s s = true.
Proof. apply includes_spec. exists "", "". now rewrite append_empty_r. Qed.

Lemma includes_trans (s q' q : string) :
  Js.includes s q' = true -> Js.includes q' q = true -> Js.includes s q = true.
Proof.
  rewrite !includes_spec. intros (a & b & ->) (c & d & ->).
  exists (a +:+ c), (d +:+ b). now rewrite !append_assoc.
Qed.

Lemma ci_substring_trans (q q' s : string) :
  ci_substring q q' -> ci_substring q' s -> ci_substring q s.
Proof.
  rewrite <- !includes_lower_spec. intros H1 H2. exact (includes_trans _ _ _ H2 H1).
Qed.

Lemma ci_substring_refl (s : string) : ci_substring s s.
Proof. apply includes_lower_spec, includes_refl. Qed.

Lemma filter_sublist_impl {A} (P Q : A -> Prop)
    `{Pd : !forall x, Decision (P x)} `{Qd : !forall x, Decision (Q x)}
    (l : list A) :
  (forall x, P x -> Q x) -> filter P l `sublist_of` filter Q l.
Proof.
  intros HPQ. induction l as [|x l IH]; [constructor |].
  destruct (decide (P x)) as [Hp|Hp].
  - rewrite (filter_cons_True P) by exact Hp.
    rewrite (filter_cons_True Q) by auto. now constructor.
  - rewrite (filter_cons_False P) by exact Hp.
    destruct (decide (Q x)) as [Hq|Hq].
    + rewrite (filter_cons_True Q) by exact Hq. now constructor.
    + now rewrite (filter_cons_False Q) by exact Hq.
Qed.

Lemma elem_of_filteredBookmarks (st : State) (bm : Bookmark) :
  bm ∈ filteredBookmarks st <-> bm ∈ bookmarks st /\ matches (search st) bm.
Proof.
  unfold filteredBookmarks. rewrite list_elem_of_filter.
  rewrite Is_true_true, orb_true_iff, !includes_lower_spec.
  unfold matches. tauto.
Qed.

(** ** Search *)

(** X2: a query that contains another narrows its result: when the
    lower-cased query [q] occurs in the lower-cased query [q'], the entries
    selected by [q'] are among those selected by [q], in the same order.
    Nothing is used of lower-casing here but that the filter applies it to
    both sides. *)
Theorem search_longer_query_narrows (q q' : string) (st : State) :
  Js.includes (Js.toLowerCase q') (Js.toLowerCase q) = true ->
  filteredBookmarks (set_search q' st) `sublist_of` filteredBookmarks (set_search q st).
Proof.
  intros Hq. unfold filteredBookmarks. simpl.
  apply filter_sublist_impl. intros bm.
  rewrite !Is_true_true, !orb_true_iff.
  intros [H|H]; [left | right]; exact (includes_trans _ _ _ H Hq).
Qed.

Lemma search_longer_query_narrows_example :
  Js.includes (Js.toLowerCase "GitHub") (Js.toLowerCase "git") = true /\
  filteredBookmarks (mkState [bm_title_github; bm_title_docs] "" "" false false "GitHub")
    `sublist_of`
  filteredBookmarks (mkState [bm_title_github; bm_title_docs] "" "" false false "git").
Proof.
  split; [reflexivity |].
  exact (search_longer_query_narrows "git" "GitHub"
           (mkState [bm_title_github; bm_title_docs] "" "" false false "") eq_refl).
Defined.

(** X3: an entry of the list is found by its own title and by its own url,
    typed as they are. *)
Theorem search_finds_entry_by_its_text (bm : Bookmark) (st : State) :
  bm ∈ bookmarks st ->
  bm ∈ filteredBookmarks (set_search (b_title bm) st) /\
  bm ∈ filteredBookmarks (set_search (b_url bm) st).
Proof.
  intros Hin. unfold filteredBookmarks. rewrite !list_elem_of_filter. simpl.
  rewrite !includes_refl, orb_true_r. simpl. repeat split; exact Hin.
Qed.

Lemma search_finds_entry_by_its_text_example :
  bm_docs ∈ [bm_github; bm_docs] /\
  bm_docs ∈ filteredBookmarks (mkState [bm_github; bm_docs] "" "" false false "Docs").
Proof.
  assert (Hin : bm_docs ∈ [bm_github; bm_docs]) by (right; left).
  split; [exact Hin |].
  exact (proj1 (search_finds_entry_by_its_text bm_docs
                  (mkState [bm_github; bm_docs] "" "" false false "") Hin)).
Defined.

(** X4: searching and deleting do not interfere: what the search shows after
    a delete notification is what it showed before, without the entries of
    the deleted id. *)
Theorem search_commutes_with_delete
    (user : string -> bool) (old : Bookmark) (st : State) :
  filteredBookmarks (run user (on_postgres_changes (DELETE old)) st).1.1 =
  filter (fun b => b_id b <> b_id old) (filteredBookmarks st).
Proof.
  rewrite realtime_delete_run. unfold filteredBookmarks. simpl.
  rewrite !list_filter_filter. apply list_filter_iff. tauto.
Qed.

(** X5: the search never brings an id twice: when the ids of the list are
    distinct, so are the ids of the entries shown, which the rendering uses
    as keys. *)
Theorem search_keeps_ids_unique (st : State) :
  NoDup (ids (bookmarks st)) -> NoDup (ids (filteredBookmarks st)).
Proof.
  intros Hnd. apply (sublist_NoDup _ _ Hnd).
  unfold ids. apply fmap_sublist, sublist_filter.
Qed.

Lemma search_keeps_ids_unique_example :
  NoDup (ids [bm_github; bm_docs]) /\
  NoDup (ids (filteredBookmarks (mkState [bm_github; bm_docs] "" "" false false "o"))).
Proof.
  assert (Hnd : NoDup (ids [bm_github; bm_docs])).
  { apply (bool_decide_unpack (NoDup (ids [bm_github; bm_docs]))).
    vm_compute. exact I. }
  split; [exact Hnd |].
  exact (search_keeps_ids_unique (mkState [bm_github; bm_docs] "" "" false false "o") Hnd).
Defined.

(** ** Notifications, one after the other *)

Lemma notified_insert (user : string -> bool) (new : Bookmark) (st : State) :
  notified user (INSERT new) st = set_bookmarks (fun prev => new :: prev) st.
Proof. reflexivity. Qed.

Lemma notified_delete (user : string -> bool) (old : Bookmark) (st : State) :
  notified user (DELETE old) st =
  set_bookmarks (filter (fun b => b_id b <> b_id old)) st.
Proof. reflexivity. Qed.

Lemma notified_update (user : string -> bool) (old new : Bookmark) (st : State) :
  notified user (UPDATE old new) st = st.
Proof. reflexivity. Qed.

(** X6: an insert notification for a row whose id the list does not hold,
    followed by the delete notification for that row, leaves the state as
    it was. *)
Theorem realtime_insert_then_delete_restores
    (user : string -> bool) (new : Bookmark) (st : State) :
  b_id new ∉ ids (bookmarks st) ->
  notified user (DELETE new) (notified user (INSERT new) st) = st.
Proof.
  intros Hfresh. rewrite notified_insert, notified_delete.
  destruct st as [l t u ld ad q]. unfold set_bookmarks. simpl in *.
  rewrite filter_cons_False by tauto. now rewrite (filter_id_absent _ _ Hfresh).
Qed.

Lemma realtime_insert_then_delete_restores_example :
  (b_id bm_github ∉ ids [bm_docs]) /\
  notified always_yes (DELETE bm_github)
    (notified always_yes (INSERT bm_github) (mkState [bm_docs] "" "" false false ""))
  = mkState [bm_docs] "" "" false false "".
Proof.
  assert (Hfresh : b_id bm_github ∉ ids [bm_docs]).
  { intros Hin. apply elem_of_cons in Hin as [Hin|Hin]; [discriminate |].
    now apply elem_of_nil in Hin. }
  split; [exact Hfresh |].
  exact (realtime_insert_then_delete_restores always_yes bm_github
           (mkState [bm_docs] "" "" false false "") Hfresh).
Defined.

(** X7: delete notifications can be delivered in either order, and a delete
    notification can change places with an insert notification for a row of
    another id: the resulting state is the same. *)
Theorem realtime_delete_commutes
    (user : string -> bool) (a b new : Bookmark) (st : State) :
  notified user (DELETE a) (notified user (DELETE b) st) =
  notified user (DELETE b) (notified user (DELETE a) st) /\
  (b_id new <> b_id a ->
   notified user (DELETE a) (notified user (INSERT new) st) =
   notified user (INSERT new) (notified user (DELETE a) st)).
Proof.
  rewrite !notified_delete, !notified_insert. unfold set_bookmarks. simpl. split.
  - f_equal. rewrite !list_filter_filter. apply list_filter_iff. tauto.
  - intros Hne. f_equal. now rewrite filter_cons_True.
Qed.

Lemma realtime_delete_commutes_example :
  b_id bm_docs <> b_id bm_github /\
  notified always_yes (DELETE bm_github)
    (notified always_yes (INSERT bm_docs) (mkState [bm_github] "" "" false false ""))
  = mkState [bm_docs] "" "" false false "".
Proof.
  assert (Hne : b_id bm_docs <> b_id bm_github) by discriminate.
  split; [exact Hne |].
  exact (proj2 (realtime_delete_commutes always_yes bm_github bm_github bm_docs
                  (mkState [bm_github] "" "" false false "")) Hne).
Defined.

(** X8: a notification touches nothing but the list: the form fields, the
    query, the two flags, the pending handlers and the trace are what they
    were, no query is issued and no toast shown; an update notification
    changes nothing at all, so an edit of a row made elsewhere never reaches
    the list. *)
Theorem realtime_touches_only_the_list
    (user : string -> bool) (user_id : string) (p : Payload)
    (old new : Bookmark) (sys : System) :
  let sys' := step user user_id sys (Realtime p) in
  title (state sys') = title (state sys) /\
  url (state sys') = url (state sys) /\
  search (state sys') = search (state sys) /\
  loading (state sys') = loading (state sys) /\
  adding (state sys') = adding (state sys) /\
  pending sys' = pending sys /\
  trace sys' = trace sys /\
  step user user_id sys (Realtime (UPDATE old new)) = sys.
Proof.
  destruct sys as [st pd tr]. cbv zeta.
  destruct p; simpl; unfold launch; simpl; rewrite ?app_nil_r; repeat split.
Qed.

(** X9: when the ids of the list are distinct, a delete notification for an
    id that the list holds removes exactly one entry. *)
Theorem realtime_delete_removes_one_entry
    (user : string -> bool) (old : Bookmark) (st : State) :
  NoDup (ids (bookmarks st)) ->
  b_id old ∈ ids (bookmarks st) ->
  length (bookmarks st) = S (length (bookmarks (notified user (DELETE old) st))).
Proof.
  rewrite notified_delete. simpl. generalize (bookmarks st) as l.
  induction l as [|b l IH]; intros Hnd Hin.
  - now apply elem_of_nil in Hin.
  - unfold ids in *. rewrite fmap_cons in *.
    apply NoDup_cons in Hnd as [Hb Hnd].
    destruct (decide (b_id b = b_id old)) as [Heq|Hne].
    + rewrite filter_cons_False by tauto.
      rewrite Heq in Hb. now rewrite (filter_id_absent _ _ Hb).
    + rewrite filter_cons_True by exact Hne. simpl. f_equal.
      apply IH; [exact Hnd |].
      apply elem_of_cons in Hin as [Hin|Hin]; [congruence | exact Hin].
Qed.

Lemma realtime_delete_removes_one_entry_example :
  NoDup (ids [bm_github; bm_docs]) /\
  (b_id bm_docs ∈ ids [bm_github; bm_docs]) /\
  length [bm_github; bm_docs] =
  S (length (bookmarks (notified always_yes (DELETE bm_docs)
                          (mkState [bm_github; bm_docs] "" "" false false "")))).
Proof.
  assert (Hnd : NoDup (ids [bm_github; bm_docs])).
  { apply (bool_decide_unpack (NoDup (ids [bm_github; bm_docs]))).
    vm_compute. exact I. }
  assert (Hin : b_id bm_docs ∈ ids [bm_github; bm_docs]) by (right; left).
  split; [exact Hnd |]. split; [exact Hin |].
  exact (realtime_delete_removes_one_entry always_yes bm_docs
           (mkState [bm_github; bm_docs] "" "" false false "") Hnd Hin).
Defined.

(** ** The handlers on the mounted component *)

Section Mounted.

Variable user : string -> bool.
Variable user_id : string.

Lemma launch_spec (p : Proc) (sys : System) :
  launch user p sys =
  mkSystem (run user p (state sys)).1.1
    (match (run user p (state sys)).2 with
     | Finished => pending sys
     | Suspended _ k => pending sys ++ [k]
     end)
    (trace sys ++ (run user p (state sys)).1.2).
Proof. unfold launch. now destruct (run user p (state sys)) as [[st evs] o]. Qed.

Lemma load_run (st : State) :
  run user load st = (st, [ECall SelectAll], Suspended SelectAll after_load).
Proof. reflexivity. Qed.

Lemma after_load_run (r : Response) (st : State) :
  run user (after_load r) st =
  (set_loading false (set_bookmarks (fun _ => default [] (data r)) st), [], Finished).
Proof. reflexivity. Qed.

Lemma after_reload_run (r : Response) (st : State) :
  run user (after_reload r) st =
  (set_bookmarks (fun _ => default [] (data r)) st, [], Finished).
Proof. reflexivity. Qed.

Lemma after_insert_run (r : Response) (st : State) :
  run user (after_insert r) st =
  (set_adding false (set_url "" (set_title "" st)),
   [EToast Success "Bookmark added!"], Finished).
Proof. reflexivity. Qed.

Lemma after_delete_run (r : Response) (st : State) :
  run user (after_delete r) st =
  match error r with
  | Some e => (st, [EConsoleError "Delete error:" e; ECall SelectAll],
               Suspended SelectAll after_reload)
  | None => (st, [], Finished)
  end.
Proof. unfold after_delete. now destruct (error r). Qed.

(** The url that [handleAdd] sends for the url [u] of the form. *)
Lemma handleAdd_run (t u : string) (st : State) :
  run user (handleAdd t u user_id) st =
  if Js.falsy (Js.trim t) || Js.falsy (Js.trim u)
  then (st, [EPreventDefault], Finished)
  else
    let c := InsertRow (Js.trim t)
               (if Js.startsWith u "http" then u else "https://" +:+ u) user_id in
    (set_adding true st, [EPreventDefault; ECall c], Suspended c after_insert).
Proof.
  unfold handleAdd. simpl.
  now destruct (Js.falsy (Js.trim t) || Js.falsy (Js.trim u)).
Qed.

Lemma handleDelete_run_any (id : string) (st : State) :
  run user (handleDelete id) st =
  if user "Delete this bookmark?"
  then (set_bookmarks (filter (fun b => b_id b <> id)) st,
        [EConfirm "Delete this bookmark?" true;
         EToast Success "Bookmark deleted!";
         ECall (DeleteEqId id)],
        Suspended (DeleteEqId id) after_delete)
  else (st, [EConfirm "Delete this bookmark?" false], Finished).
Proof.
  unfold handleDelete. simpl. now destruct (user "Delete this bookmark?").
Qed.

Lemma filter_ids_NoDup (i : string) (l : list Bookmark) :
  NoDup (ids l) -> NoDup (ids (filter (fun b => b_id b <> i) l)).
Proof.
  intros Hnd. apply (sublist_NoDup _ _ Hnd).
  unfold ids. apply fmap_sublist, sublist_filter.
Qed.

(** What the invariant of the mounted component is made of. *)
Definition ids_unique (sys : System) : Prop :=
  Forall known_continuation (pending sys) /\ NoDup (ids (bookmarks (state sys))).

Lemma known_snoc (pd : list (Response -> Proc)) (k : Response -> Proc) :
  Forall known_continuation pd -> known_continuation k ->
  Forall known_continuation (pd ++ [k]).
Proof. intros Hpd Hk. apply Forall_app. split; [exact Hpd |]. now constructor. Qed.

Lemma mount_ids_unique : ids_unique (mount user).
Proof.
  split; simpl.
  - apply (known_snoc []); [constructor | now left].
  - constructor.
Qed.

Lemma step_ids_unique (sys : System) (i : Input) :
  ids_unique sys -> brings_no_duplicate sys i -> ids_unique (step user user_id sys i).
Proof.
  intros [Hk Hnd] Hi. destruct sys as [st pd tr]. simpl in *.
  destruct i as [v|v|v| |id|p|n r]; simpl.
  - split; assumption.
  - split; assumption.
  - split; assumption.
  - destruct (adding st); [split; assumption |].
    rewrite launch_spec, handleAdd_run. simpl.
    destruct (Js.falsy _ || Js.falsy _); split; simpl; try assumption.
    apply known_snoc; [assumption |]. right. now left.
  - destruct (decide _); [| split; assumption].
    rewrite launch_spec, handleDelete_run_any. simpl.
    destruct (user _); split; simpl; try assumption.
    + apply known_snoc; [assumption |]. right. right. now left.
    + now apply filter_ids_NoDup.
  - destruct p as [new|old new|old]; unfold launch; simpl; split;
      try assumption.
    + apply (NoDup_cons (b_id new) (ids (bookmarks st))). split; assumption.
    + now apply filter_ids_NoDup.
  - destruct (pd !! n) as [k|] eqn:Hn; [| split; assumption].
    assert (Hkn : known_continuation k) by (eapply Forall_lookup_1; eassumption).
    assert (Hpd : Forall known_continuation (delete n pd)) by now apply Forall_delete.
    destruct Hkn as [-> | [-> | [-> | ->]]].
    + rewrite launch_spec, after_load_run. split; assumption.
    + rewrite launch_spec, after_insert_run. split; assumption.
    + rewrite launch_spec, after_delete_run. simpl.
      destruct (error r); split; simpl; try assumption.
      apply known_snoc; [assumption |]. right. right. now right.
    + rewrite launch_spec, after_reload_run. split; assumption.
Qed.

Lemma steps_ids_unique (inputs : list Input) (sys : System) :
  ids_unique sys -> bring_no_duplicate user user_id sys inputs ->
  ids_unique (steps user user_id sys inputs).
Proof.
  revert sys. induction inputs as [|i rest IH]; intros sys Hsys Hin; [exact Hsys |].
  destruct Hin as [Hi Hrest]. simpl. apply IH; [| exact Hrest].
  now apply step_ids_unique.
Qed.

End Mounted.

(** X10: the ids of the list stay distinct as long as no input brings a
    second copy of one. From the first render on, over every sequence of
    typing, submits, delete clicks, Gateway replies and notifications in
    which each insert notification carries an id the list does not hold at
    that moment and each reply carries rows of distinct ids, no two entries
    of the list have the same id. *)
Theorem ids_stay_unique_without_duplicate_inputs
    (user : string -> bool) (user_id : string) (inputs : list Input) :
  bring_no_duplicate user user_id (mount user) inputs ->
  NoDup (ids (bookmarks (state (steps user user_id (mount user) inputs)))).
Proof.
  intros Hin. apply (steps_ids_unique user user_id inputs (mount user)).
  - apply mount_ids_unique.
  - exact Hin.
Qed.

Lemma ids_stay_unique_example :
  bring_no_duplicate always_yes "u1" (mount always_yes)
    [Resolve 0 (rows [bm_github]); Realtime (INSERT bm_docs);
     ClickDelete "b1"; Realtime (DELETE bm_github)] /\
  NoDup (ids (bookmarks (state (steps always_yes "u1" (mount always_yes)
    [Resolve 0 (rows [bm_github]); Realtime (INSERT bm_docs);
     ClickDelete "b1"; Realtime (DELETE bm_github)])))).
Proof.
  assert (Hin : bring_no_duplicate always_yes "u1" (mount always_yes)
    [Resolve 0 (rows [bm_github]); Realtime (INSERT bm_docs);
     ClickDelete "b1"; Realtime (DELETE bm_github)]).
  { simpl. repeat split.
    - apply (bool_decide_unpack (NoDup (ids [bm_github]))). vm_compute. exact I.
    - apply (bool_decide_unpack (b_id bm_docs ∉ ids [bm_github])).
      vm_compute. exact I. }
  split; [exact Hin |].
  exact (ids_stay_unique_without_duplicate_inputs always_yes "u1" _ Hin).
Defined.

(** ** The initial load *)

Section Replies.

Variable user : string -> bool.
Variable user_id : string.


Lemma steps_cons (sys : System) (i : Input) (rest : list Input) :
  steps user user_id sys (i :: rest) =
  steps user user_id (step user user_id sys i) rest.
Proof. reflexivity. Qed.


Lemma resolve_last (sys : System) (k : Response -> Proc) (pd : list (Response -> Proc))
    (r : Response) :
  pending sys = pd ++ [k] ->
  step user user_id sys (Resolve (length pd) r) =
  launch user (k r) (mkSystem (state sys) pd (trace sys)).
Proof.
  intros Hpd. simpl. rewrite Hpd.
  rewrite (list_lookup_middle pd [] k (length pd) eq_refl).
  now rewrite delete_middle, app_nil_r.
Qed.

End Replies.




(** ** Trimming *)

Lemma trimStart_head (s : string) :
  Js.trimStart s = "" \/
  exists c s', Js.trimStart s = String c s' /\ Js.isWhiteSpace c = false.
Proof.
  induction s as [|c s IH]; [now left |]. simpl.
  destruct (Js.isWhiteSpace c) eqn:Hc; [exact IH |]. right. eauto.
Qed.

Lemma trimEnd_head (c : ascii) (s : string) :
  Js.isWhiteSpace c = false -> exists t, Js.trimEnd (String c s) = String c t.
Proof.
  intros Hc. simpl. rewrite Hc. destruct (Js.trimEnd s); eauto.
Qed.

Lemma trimEnd_idem (s : string) : Js.trimEnd (Js.trimEnd s) = Js.trimEnd s.
Proof.
  induction s as [|c s IH]; [reflexivity |]. simpl.
  destruct (Js.trimEnd s) as [|d t] eqn:Ht.
  - destruct (Js.isWhiteSpace c) eqn:Hc; [reflexivity |]. simpl. now rewrite Hc.
  - change (Js.trimEnd (String c (String d t)))
      with (match Js.trimEnd (String d t) with
            | EmptyString =>
                if Js.isWhiteSpace c then EmptyString else String c EmptyString
            | u => String c u
            end).
    now rewrite IH.
Qed.

(** Trimming what is trimmed changes nothing. *)
Lemma trim_idem (s : string) : Js.trim (Js.trim s) = Js.trim s.
Proof.
  unfold Js.trim. destruct (trimStart_head s) as [->|(c & s' & -> & Hc)];
    [reflexivity |].
  destruct (trimEnd_head c s' Hc) as [t Ht]. rewrite Ht.
  simpl Js.trimStart. rewrite Hc, <- Ht. apply trimEnd_idem.
Qed.

Lemma startsWith_http_of_https (u : string) :
  Js.startsWith ("https://" +:+ u) "http" = true.
Proof. apply prefix_spec. exists ("s://" +:+ u). reflexivity. Qed.






(** ** [handleAdd]: what is sent *)




(** The round trip of the specification, on the handler:
    [add("Docs", "example.com")]. *)
Lemma handleAdd_docs_example_com :
  exists k,
    run always_yes (handleAdd "Docs" "example.com" "u1") initial =
      (set_adding true initial,
       [EPreventDefault; ECall (InsertRow "Docs" "https://example.com" "u1")],
       Suspended (InsertRow "Docs" "https://example.com" "u1") k).
Proof. eexists. reflexivity. Qed.

(** ** [handleAdd], from submit to reply *)

(** X13: whatever the form holds, a query that [handleAdd] issues is an
    insert for the signed-in user, with a title that is not empty and has no
    white space around it, and a url that begins with [http]. *)
Theorem handleAdd_sends_well_formed_rows
    (user : string -> bool) (t u uid : string) (st : State) (c : Call) :
  ECall c ∈ (run user (handleAdd t u uid) st).1.2 ->
  exists ttl fullUrl,
    c = InsertRow ttl fullUrl uid /\
    ttl <> "" /\
    Js.trim ttl = ttl /\
    Js.startsWith fullUrl "http" = true.
Proof.
  rewrite handleAdd_run.
  destruct (Js.falsy (Js.trim t)) eqn:Ht; simpl.
  { intros Hin. apply elem_of_cons in Hin as [Hin|Hin]; [discriminate |].
    now apply elem_of_nil in Hin. }
  destruct (Js.falsy (Js.trim u)) eqn:Hu; simpl.
  { intros Hin. apply elem_of_cons in Hin as [Hin|Hin]; [discriminate |].
    now apply elem_of_nil in Hin. }
  intros Hin. apply elem_of_cons in Hin as [Hin|Hin]; [discriminate |].
  apply elem_of_cons in Hin as [Hin|Hin]; [| now apply elem_of_nil in Hin].
  injection Hin as ->. eexists _, _. split; [reflexivity |].
  split; [| split].
  - intros He. apply falsy_spec in He. congruence.
  - apply trim_idem.
  - destruct (Js.startsWith u "http") eqn:Hs; [exact Hs |].
    apply startsWith_http_of_https.
Qed.

Lemma handleAdd_sends_well_formed_rows_example :
  (ECall (InsertRow "Docs" "https://example.com" "u1")
     ∈ (run always_yes (handleAdd "  Docs " "example.com" "u1") initial).1.2) /\
  Js.trim "Docs" = "Docs".
Proof.
  assert (Hin : ECall (InsertRow "Docs" "https://example.com" "u1")
     ∈ (run always_yes (handleAdd "  Docs " "example.com" "u1") initial).1.2)
    by (right; left).
  split; [exact Hin |].
  destruct (handleAdd_sends_well_formed_rows always_yes "  Docs " "example.com" "u1"
              initial _ Hin) as (ttl & fullUrl & Hc & _ & Htrim & _).
  injection Hc as <- _. exact Htrim.
Defined.

(** X14: while the insert is pending, a second submit is ignored. When
    [handleAdd] runs with a title and a url that are not blank, the state in
    which it awaits the insert has the submit button disabled and labelled
    [Adding...], and a submit in that state changes nothing and issues
    nothing. *)
Theorem second_submit_is_ignored
    (user : string -> bool) (user_id : string) (t u : string) (st : State)
    (pd : list (Response -> Proc)) (tr : list Event) :
  Js.trim t <> "" ->
  Js.trim u <> "" ->
  let st1 := (run user (handleAdd t u user_id) st).1.1 in
  submitDisabled st1 = true /\
  submitLabel st1 = "Adding..." /\
  step user user_id (mkSystem st1 pd tr) Submit = mkSystem st1 pd tr.
Proof.
  intros Ht Hu. cbv zeta. rewrite handleAdd_run.
  assert (Js.falsy (Js.trim t) || Js.falsy (Js.trim u) = false) as ->.
  { apply orb_false_iff. split; apply not_true_is_false; rewrite falsy_spec; assumption. }
  repeat split.
Qed.

Lemma second_submit_is_ignored_example :
  Js.trim "Docs" <> "" /\ Js.trim "https://example.com" <> "" /\
  submitLabel (run always_yes (handleAdd "Docs" "https://example.com" "u1")
                 (mkState [] "Docs" "https://example.com" false false "")).1.1
  = "Adding...".
Proof.
  assert (Ht : Js.trim "Docs" <> "") by (vm_compute; discriminate).
  assert (Hu : Js.trim "https://example.com" <> "") by (vm_compute; discriminate).
  split; [exact Ht |]. split; [exact Hu |].
  exact (proj1 (proj2
    (second_submit_is_ignored always_yes "u1" "Docs" "https://example.com"
       (mkState [] "Docs" "https://example.com" false false "") [] [] Ht Hu))).
Defined.

(** X15: what the user types while the insert is pending is lost. When
    [handleAdd] runs with a title and a url that are not blank, it is
    suspended at the insert; the form stays editable, and when the reply
    comes, whether it reports success or an error, the handler empties both
    fields whatever they hold by then, enables the submit button again,
    shows the success toast and leaves the list as it is. *)
Theorem typing_during_insert_is_discarded
    (user : string -> bool) (user_id : string) (t u : string) (st : State) :
  Js.trim t <> "" ->
  Js.trim u <> "" ->
  exists c k,
    (run user (handleAdd t u user_id) st).2 = Suspended c k /\
    forall (sys : System) (n : nat) (v w : string) (r : Response),
      pending sys !! n = Some k ->
      let sys' := steps user user_id sys [ChangeTitle v; ChangeUrl w; Resolve n r] in
      title (state sys') = "" /\
      url (state sys') = "" /\
      adding (state sys') = false /\
      bookmarks (state sys') = bookmarks (state sys) /\
      pending sys' = delete n (pending sys) /\
      trace sys' = trace sys ++ [EToast Success "Bookmark added!"].
Proof.
  intros Ht Hu. rewrite handleAdd_run.
  assert (Js.falsy (Js.trim t) || Js.falsy (Js.trim u) = false) as ->.
  { apply orb_false_iff. split; apply not_true_is_false; rewrite falsy_spec; assumption. }
  cbv zeta. eexists _, after_insert. split; [reflexivity |].
  intros [st0 pd tr] n v w r Hn. cbn [pending state trace] in *.
  rewrite !steps_cons. change (steps user user_id ?s []) with s.
  simpl. rewrite Hn, launch_spec, after_insert_run. simpl. repeat split.
Qed.

Lemma typing_during_insert_is_discarded_example :
  Js.trim "Docs" <> "" /\ Js.trim "https://example.com" <> "" /\
  exists c k,
    (run always_yes (handleAdd "Docs" "https://example.com" "u1")
       (mkState [] "Docs" "https://example.com" false false "")).2 = Suspended c k /\
    title (state (steps always_yes "u1"
                    (mkSystem (mkState [] "Docs" "https://example.com" false true "")
                       [k] [])
                    [ChangeTitle "Next"; ChangeUrl "https://next.org";
                     Resolve 0 (failed (mkError "network"))])) = "".
Proof.
  assert (Ht : Js.trim "Docs" <> "") by (vm_compute; discriminate).
  assert (Hu : Js.trim "https://example.com" <> "") by (vm_compute; discriminate).
  split; [exact Ht |]. split; [exact Hu |].
  destruct (typing_during_insert_is_discarded always_yes "u1" "Docs"
              "https://example.com"
              (mkState [] "Docs" "https://example.com" false false "") Ht Hu)
    as (c & k & Hrun & Hk).
  exists c, k. split; [exact Hrun |].
  exact (proj1 (Hk (mkSystem (mkState [] "Docs" "https://example.com" false true "")
                      [k] [])
                   0 "Next" "https://next.org" (failed (mkError "network")) eq_refl)).
Defined.

(** ** [handleDelete], from click to reload *)

(** X16: a delete that the user does not confirm does nothing: the state
    and the pending handlers are what they were, no query is issued and no
    toast is shown; the dialog is all that happened. *)
Theorem declined_delete_changes_nothing
    (user : string -> bool) (user_id : string) (id : string) (sys : System) :
  user "Delete this bookmark?" = false ->
  run user (handleDelete id) (state sys) =
    (state sys, [EConfirm "Delete this bookmark?" false], Finished) /\
  state (step user user_id sys (ClickDelete id)) = state sys /\
  pending (step user user_id sys (ClickDelete id)) = pending sys /\
  no_call (drop (length (trace sys)) (trace (step user user_id sys (ClickDelete id)))).
Proof.
  intros Hno. rewrite handleDelete_run_any, Hno. split; [reflexivity |].
  destruct sys as [st pd tr]. simpl.
  destruct (decide _); simpl.
  - rewrite launch_spec, handleDelete_run_any, Hno. simpl. repeat split.
    rewrite drop_app_length. intros c Hin.
    apply elem_of_cons in Hin as [Hin|Hin]; [discriminate |].
    now apply elem_of_nil in Hin.
  - repeat split. rewrite drop_all. intros c Hin. now apply elem_of_nil in Hin.
Qed.

Lemma declined_delete_changes_nothing_example :
  (fun _ : string => false) "Delete this bookmark?" = false /\
  state (step (fun _ => false) "u1"
           (mkSystem (mkState [bm_github; bm_docs] "" "" false false "") [] [])
           (ClickDelete "b1"))
  = mkState [bm_github; bm_docs] "" "" false false "".
Proof.
  split; [reflexivity |].
  exact (proj1 (proj2 (declined_delete_changes_nothing (fun _ => false) "u1" "b1"
                         (mkSystem (mkState [bm_github; bm_docs] "" "" false false "") [] [])
                         eq_refl))).
Defined.

Lemma failed_delete_steps
    (user : string -> bool) (user_id : string) (id : string) (sys : System)
    (r : Response) (e : PostgrestError) :
  user "Delete this bookmark?" = true ->
  id ∈ ids (filteredBookmarks (state sys)) ->
  error r = Some e ->
  steps user user_id sys [ClickDelete id; Resolve (length (pending sys)) r] =
  mkSystem (set_bookmarks (filter (fun b => b_id b <> id)) (state sys))
    (pending sys ++ [after_reload])
    (trace sys ++
       [EConfirm "Delete this bookmark?" true;
        EToast Success "Bookmark deleted!";
        ECall (DeleteEqId id);
        EConsoleError "Delete error:" e;
        ECall SelectAll]).
Proof.
  intros Hyes Hin Hr. destruct sys as [st pd tr]. cbn [pending state trace] in *.
  rewrite !steps_cons. change (steps user user_id ?s []) with s.
  assert (Hclick : step user user_id (mkSystem st pd tr) (ClickDelete id) =
                   mkSystem (set_bookmarks (filter (fun b => b_id b <> id)) st)
                     (pd ++ [after_delete])
                     (tr ++ [EConfirm "Delete this bookmark?" true;
                             EToast Success "Bookmark deleted!";
                             ECall (DeleteEqId id)])).
  { simpl. rewrite decide_True by exact Hin.
    now rewrite launch_spec, handleDelete_run_any, Hyes. }
  rewrite Hclick.
  rewrite (resolve_last user user_id _ after_delete pd r) by reflexivity.
  rewrite launch_spec, after_delete_run, Hr. simpl.
  now rewrite <- app_assoc.
Qed.

(** X17: a delete that the Gateway refuses is only logged. The toast
    [Bookmark deleted!] is shown before the query is issued; when the reply
    carries an error, the error goes to the console, the full list is asked
    for again, and no toast reports the failure. Until the rows come back,
    the list stays without the entry. *)
Theorem failed_delete_is_only_logged
    (user : string -> bool) (user_id : string) (id : string) (sys : System)
    (r : Response) (e : PostgrestError) :
  user "Delete this bookmark?" = true ->
  id ∈ ids (filteredBookmarks (state sys)) ->
  error r = Some e ->
  let sys' := steps user user_id sys
                [ClickDelete id; Resolve (length (pending sys)) r] in
  trace sys' = trace sys ++
    [EConfirm "Delete this bookmark?" true;
     EToast Success "Bookmark deleted!";
     ECall (DeleteEqId id);
     EConsoleError "Delete error:" e;
     ECall SelectAll] /\
  pending sys' = pending sys ++ [after_reload] /\
  bookmarks (state sys') = filter (fun b => b_id b <> id) (bookmarks (state sys)).
Proof.
  intros Hyes Hin Hr. cbv zeta.
  rewrite (failed_delete_steps user user_id id sys r e Hyes Hin Hr).
  repeat split.
Qed.

Lemma failed_delete_is_only_logged_example :
  always_yes "Delete this bookmark?" = true /\
  ("b1" ∈ ids (filteredBookmarks (mkState [bm_github; bm_docs] "" "" false false ""))) /\
  error (failed (mkError "network")) = Some (mkError "network") /\
  bookmarks (state (steps always_yes "u1"
                      (mkSystem (mkState [bm_github; bm_docs] "" "" false false "") [] [])
                      [ClickDelete "b1"; Resolve 0 (failed (mkError "network"))]))
  = [bm_docs].
Proof.
  assert (Hin : "b1" ∈ ids (filteredBookmarks
                              (mkState [bm_github; bm_docs] "" "" false false "")))
    by left.
  split; [reflexivity |]. split; [exact Hin |]. split; [reflexivity |].
  exact (proj2 (proj2 (failed_delete_is_only_logged always_yes "u1" "b1"
                         (mkSystem (mkState [bm_github; bm_docs] "" "" false false "") [] [])
                         (failed (mkError "network")) (mkError "network")
                         eq_refl Hin eq_refl))).
Defined.



(** ** What is rendered *)

Lemma filteredBookmarks_of_empty (st : State) :
  bookmarks st = [] -> filteredBookmarks st = [].
Proof. intros He. unfold filteredBookmarks. now rewrite He. Qed.

(** X19: the conditions of the blocks exclude each other. The conditions
    of the two messages never hold together, and neither holds while the
    spinner is on or while the filtered list has an entry. When the
    condition of [No bookmarks yet] holds, those of the counter and of the
    search bar do not; when the condition of [No bookmarks match your
    search] holds, so do those of the counter and of the search bar, so the
    query can be changed. Once the load is over, exactly one of three cases
    holds: the filtered list has an entry, and a card is rendered for each;
    or it is empty and the condition of one message holds and not the
    other's. What rendering a card does is not part of the statement. *)
Theorem rendered_blocks_are_exclusive (st : State) :
  (showEmpty st = true ->
   showNoMatch st = false /\ showCount st = false /\ showSearchBar st = false /\
   showSpinner st = false /\ filteredBookmarks st = []) /\
  (showNoMatch st = true ->
   showEmpty st = false /\ showCount st = true /\ showSearchBar st = true /\
   showSpinner st = false /\ filteredBookmarks st = []) /\
  (showSpinner st = true ->
   showEmpty st = false /\ showNoMatch st = false /\ showCount st = false) /\
  (showSpinner st = false ->
   (filteredBookmarks st <> [] /\ showNoMatch st = false /\ showEmpty st = false) \/
   (filteredBookmarks st = [] /\ showNoMatch st = true /\ showEmpty st = false) \/
   (filteredBookmarks st = [] /\ showNoMatch st = false /\ showEmpty st = true)).
Proof.
  pose proof (filteredBookmarks_of_empty st) as Hfe.
  unfold showEmpty, showNoMatch, showCount, showSearchBar, showSpinner.
  destruct (loading st), (bookmarks st) as [|b l], (filteredBookmarks st) as [|b' l'];
    simpl; repeat split; intros; try discriminate; try reflexivity;
    try (specialize (Hfe eq_refl); discriminate).
  - right. right. repeat split.
  - right. left. repeat split.
  - left. repeat split. discriminate.
Qed.

(** ** Search on strings beyond U+00FF *)

Lemma embed_cons (c : ascii) (s : string) :
  embed (String c s) = N_of_ascii c :: embed s.
Proof. reflexivity. Qed.

Lemma in_repertoire_embed (s : string) :
  forallb Wide.in_repertoire (embed s) = true.
Proof.
  induction s as [|c s IH]; [reflexivity |]. rewrite embed_cons. simpl.
  rewrite IH, andb_true_r. unfold Wide.in_repertoire.
  pose proof (N_ascii_bounded c) as Hb. apply N.ltb_lt in Hb. now rewrite Hb.
Qed.

Lemma lower_unit_embed (c : ascii) :
  Wide.lower_unit (N_of_ascii c) = N_of_ascii (Js.toLowerCaseUnit c).
Proof.
  rewrite N_of_toLowerCaseUnit. cbv zeta. unfold Wide.lower_unit, Wide.greek_capital.
  pose proof (N_ascii_bounded c) as Hb. revert Hb.
  generalize (N_of_ascii c) as n. intros n Hb.
  assert ((913 <=? n) && (n <=? 929) || (931 <=? n) && (n <=? 937) = false)%N as ->.
  { destruct (N.leb_spec 913 n), (N.leb_spec 931 n); simpl; try reflexivity; lia. }
  now rewrite orb_false_r.
Qed.

(** Below U+0100 there is no capital sigma, and lower-casing goes unit by
    unit, as [Js.toLowerCase] does. *)
Lemma lower_from_embed (before : bool) (s : string) :
  Wide.lower_from before (embed s) = embed (Js.toLowerCase s).
Proof.
  revert before. induction s as [|c s IH]; intros before; [reflexivity |].
  rewrite embed_cons. simpl Js.toLowerCase. rewrite embed_cons. simpl.
  assert ((N_of_ascii c =? Wide.capital_sigma)%N = false) as ->.
  { apply N.eqb_neq. pose proof (N_ascii_bounded c). unfold Wide.capital_sigma. lia. }
  simpl. now rewrite IH, lower_unit_embed.
Qed.

Lemma toLowerCase_embed (s : string) :
  Wide.toLowerCase (embed s) = Some (embed (Js.toLowerCase s)).
Proof.
  unfold Wide.toLowerCase. now rewrite in_repertoire_embed, lower_from_embed.
Qed.

Lemma startsWith_embed (s p : string) :
  Wide.startsWith (embed s) (embed p) = String.prefix p s.
Proof.
  revert s. induction p as [|a p IH]; intros s.
  - destruct s; reflexivity.
  - destruct s as [|b s]; [reflexivity |].
    rewrite !embed_cons. simpl. rewrite IH.
    destruct (ascii_dec a b) as [->|Hne].
    + now rewrite N.eqb_refl.
    + assert ((N_of_ascii a =? N_of_ascii b)%N = false) as ->; [| reflexivity].
      apply N.eqb_neq. intros H. apply Hne. now apply N_of_ascii_inj.
Qed.

Lemma includes_embed (s q : string) :
  Wide.includes (embed s) (embed q) = Js.includes s q.
Proof.
  induction s as [|c s IH].
  - rewrite includes_empty_string, <- startsWith_embed. reflexivity.
  - rewrite includes_cons, <- startsWith_embed, <- IH. reflexivity.
Qed.

Lemma entry_matches_embed (bm : Bookmark) (q : string) :
  Wide.entry_matches (embed_bookmark bm) (embed q) =
  Some (Js.includes (Js.toLowerCase (b_title bm)) (Js.toLowerCase q) ||
        Js.includes (Js.toLowerCase (b_url bm)) (Js.toLowerCase q)).
Proof.
  unfold Wide.entry_matches, embed_bookmark. simpl.
  now rewrite !toLowerCase_embed, !includes_embed.
Qed.

(** On entries and queries of code units below U+0100, the search with
    the lower-casing of the wider repertoire is the search of the model. *)
Lemma filteredBookmarks_embed (st : State) :
  Wide.filteredBookmarks (embed_bookmark <$> bookmarks st) (embed (search st)) =
  Some (embed_bookmark <$> filteredBookmarks st).
Proof.
  unfold filteredBookmarks. induction (bookmarks st) as [|bm l IH]; [reflexivity |].
  rewrite fmap_cons. simpl Wide.filteredBookmarks.
  rewrite entry_matches_embed, IH, filter_cons.
  destruct (Js.includes _ _ || Js.includes _ _) eqn:E.
  - rewrite decide_True by now apply Is_true_true. reflexivity.
  - rewrite decide_False; [reflexivity |]. rewrite Is_true_true. congruence.
Qed.

(** C9, as stated, fails on the code: the title kosmos, in capitals,
    begins with the query made of its first three letters, so the query is
    a substring of the title, case-insensitive or not; and the search with
    that query does not return the entry. Lower-casing turns the sigma that
    ends the query into a final sigma, and the sigma in the middle of the
    title into an ordinary one. *)
Lemma search_misses_title_that_contains_query :
  Wide.w_title bm_kosmos = kos_query ++ [924; 927; 931]%N /\
  Wide.toLowerCase (Wide.w_title bm_kosmos) = Some [954; 959; 963; 956; 959; 962]%N /\
  Wide.toLowerCase kos_query = Some [954; 959; 962]%N /\
  Wide.filteredBookmarks [bm_kosmos] kos_query = Some [].
Proof. repeat split. Qed.

(** C9, amended: [filteredBookmarks] is a function of the [bookmarks] and
    [search] cells alone and returns a list of its own, the state being left
    as it is. For titles, urls and queries of code units below U+0100,
    where lower-casing goes letter by letter, the list holds exactly the
    entries whose title or url has the query as a case-insensitive
    substring: those entries, as often as in the list and in its order; and
    on such text the search with the lower-casing of the wider repertoire
    gives the same list. With the empty query it is the whole list, and over
    the entries titled [GitHub] and [Docs] the query [git] gives the first
    alone, through its title. *)
Theorem filteredBookmarks_exactly_the_matches (st : State) :
  selected (matches (search st)) (bookmarks st) (filteredBookmarks st) /\
  (forall bm, bm ∈ filteredBookmarks st <->
              bm ∈ bookmarks st /\ matches (search st) bm) /\
  filteredBookmarks st `sublist_of` bookmarks st /\
  Wide.filteredBookmarks (embed_bookmark <$> bookmarks st) (embed (search st)) =
    Some (embed_bookmark <$> filteredBookmarks st) /\
  filteredBookmarks (set_search "" st) = bookmarks st /\
  filteredBookmarks (mkState [bm_title_github; bm_title_docs] "" "" false false "git")
    = [bm_title_github].
Proof.
  split; [apply filteredBookmarks_selected |].
  split; [apply elem_of_filteredBookmarks |].
  split; [apply sublist_filter |].
  split; [apply filteredBookmarks_embed |]. split; [| reflexivity].
  unfold filteredBookmarks. simpl.
  induction (bookmarks st) as [|bm l IH]; [reflexivity |].
  rewrite filter_cons_True; [now rewrite IH |].
  apply Is_true_true. now rewrite includes_empty.
Qed.
